(** * telebot.states.asyncio.context: the [StateContext] facade

    A shallow embedding of [src/telebot/states/asyncio/context.py].  The
    class keeps a message (or callback query), a reference to the bot and a
    copy of the bot's id, and each of its six methods resolves an addressing
    tuple and hands it to one method of the bot.

    Python objects that this file owns ([StateContext] instances) and the
    bot objects they point to live in a store indexed by object identity;
    methods are state-passing functions that may raise.  What the bot's
    methods do is not in this file: it is a parameter of the development
    (class [Telebot]), and every call that crosses that boundary is written
    to a log, so that statements about "which call, with which arguments"
    can be made. *)

From stdpp Require Import base option list strings gmap.
From Stdlib Require Import ZArith.

Local Open Scope Z_scope.

(** ** Python values *)

(** Object identity. *)
Definition loc := positive.

(** The values that cross the boundary of the class: [None], booleans,
    integers, strings, instances of [telebot.states.State] (of which the
    code reads the attribute [name] only) and references to objects the
    code never looks into (coroutines, context managers, dictionaries). *)
Inductive pyval : Type :=
| PNone
| PBool (b : bool)
| PInt (z : Z)
| PStr (s : string)
| PState (name : pyval)
| PObj (l : loc).

(** [isinstance(v, State)] *)
Definition isinstance_State (v : pyval) : bool :=
  match v with PState _ => true | _ => false end.

(** [v.name] for a [State] instance. *)
Definition State_name (v : pyval) : pyval :=
  match v with PState n => n | _ => PNone end.

(** The exceptions that show up in the model; [Exception] stands for
    anything the bot's methods raise. *)
Inductive exn : Type :=
| TypeError (what : string)
| AttributeError (what : string)
| Exception (payload : pyval).

Inductive result (R : Type) : Type :=
| Ok (v : R)
| Raised (e : exn).
Arguments Ok {R} v.
Arguments Raised {R} e.

(** Keyword arguments, in the order they are written or stored. *)
Definition kwargs := list (string * pyval).

Fixpoint kwlookup (k : string) (kw : kwargs) : option pyval :=
  match kw with
  | [] => None
  | (k', v) :: kw' => if String.eqb k k' then Some v else kwlookup k kw'
  end.

Definition kwnames (kw : kwargs) : list string := fst <$> kw.

(** A call with written keywords [k1=v1, ..., kn=vn] followed by a
    double-starred mapping: Python merges the written keywords with the
    mapping and raises [TypeError] when the mapping repeats a written
    keyword, before the callee is entered. *)
Definition repeated_keyword (explicit star : kwargs) : option string :=
  List.find (fun k => bool_decide (k ∈ kwnames explicit)) (kwnames star).

Definition merge_keywords (explicit star : kwargs) : result kwargs :=
  match repeated_keyword explicit star with
  | Some k => Raised (TypeError k)
  | None => Ok (explicit ++ star)
  end.

(** The keywords of a caller, given to a method whose parameters are
    [(self, **kwargs)], cannot be bound when one of them is named [self],
    which has its value already, or is given twice: Python raises
    [TypeError] at the call.  The result is the first keyword that cannot
    be bound. *)
Fixpoint first_taken (taken ks : list string) : option string :=
  match ks with
  | [] => None
  | k :: ks' =>
      if bool_decide (k ∈ taken) then Some k else first_taken (k :: taken) ks'
  end.

Definition binding_error (kw : kwargs) : option string :=
  first_taken ["self"] (kwnames kw).

(** ** The addressing tuple *)

(** What [telebot.states.resolve_context] returns, as the code takes it:
    five values, unpacked in the order chat id, user id, business-connection
    id, bot id, message-thread id.  The code looks into none of them, so
    each is any Python value, [None] included. *)
Definition context_tuple : Type := pyval * pyval * pyval * pyval * pyval.

(** ** The collaborators *)

Module AsyncTeleBot.
(** The one attribute of the bot that the class reads. *)
Record t : Type := Build { bot_id : pyval }.
End AsyncTeleBot.

(** What is imported from the rest of the package: the two event types of
    [telebot.types], [resolve_context], and the behaviour of the bot's
    methods.  [invoke b m kw] is the call of method [m] of bot [b] with
    the keyword arguments [kw]; for the coroutine methods of the bot it
    returns the coroutine object, and [resume c] is [await c].  Both act
    on the bots and on the state of the storage layer, and both may
    raise.  [resolve_context] is taken to be a function that returns a
    tuple for every message and id. *)
Class Telebot : Type := {
  Message : Type;
  CallbackQuery : Type;
  resolve_context : Message + CallbackQuery → pyval → context_tuple;
  storage : Type;
  invoke : loc → string → kwargs →
           gmap loc AsyncTeleBot.t * storage →
           result pyval * (gmap loc AsyncTeleBot.t * storage);
  resume : pyval →
           gmap loc AsyncTeleBot.t * storage →
           result pyval * (gmap loc AsyncTeleBot.t * storage)
}.

(** What crossed the boundary. *)
Inductive interaction : Type :=
| Called (b : loc) (method : string) (kw : kwargs)
| Awaited (c : pyval).

(** ** The class *)

Module StateContext.

Section Class.
Context `{T : Telebot}.

(** The instance attributes set by the constructor. *)
Record t : Type := Build {
  message : Message + CallbackQuery;
  bot : loc;
  bot_id : pyval
}.

(** The objects of the program: the [StateContext] instances, the bots,
    the state of the storage layer behind the bots, and the log of what
    was asked of the bots.  The storage layer holds no reference to a
    [StateContext], so [invoke] and [resume] do not see [contexts]. *)
Record world : Type := World {
  contexts : gmap loc t;
  bots : gmap loc AsyncTeleBot.t;
  store : storage;
  log : list interaction
}.

(** Computations: they read and write the world and may raise. *)
Definition M (R : Type) : Type := world → result R * world.

#[export] Instance M_ret : MRet M := λ _ v w, (Ok v, w).

#[export] Instance M_bind : MBind M := λ _ _ k m w,
  match m w with
  | (Ok v, w') => k v w'
  | (Raised e, w') => (Raised e, w')
  end.

Definition raise {R} (e : exn) : M R := λ w, (Raised e, w).

(** [self.f] for an attribute [f] of a [StateContext]. *)
Definition getattr {A} (self : loc) (f : t → A) : M A := λ w,
  match contexts w !! self with
  | Some c => (Ok (f c), w)
  | None => (Raised (AttributeError "self"), w)
  end.

(** [b.bot_id] for a bot [b]. *)
Definition getattr_bot_id (b : loc) : M pyval := λ w,
  match bots w !! b with
  | Some o => (Ok (AsyncTeleBot.bot_id o), w)
  | None => (Raised (AttributeError "bot_id"), w)
  end.

(** The call of method [m] of bot [b] with the written keywords
    [explicit] and the double-starred mapping [star]. *)
Definition call_method (b : loc) (m : string) (explicit star : kwargs) : M pyval :=
  λ w,
  match merge_keywords explicit star with
  | Raised e => (Raised e, w)
  | Ok kw =>
      let '(r, (bs, st)) := invoke b m kw (bots w, store w) in
      (r, World (contexts w) bs st (log w ++ [Called b m kw]))
  end.

(** [await c] for an awaitable [c] of the bot. *)
Definition await (c : pyval) : M pyval := λ w,
  let '(r, (bs, st)) := resume c (bots w, store w) in
  (r, World (contexts w) bs st (log w ++ [Awaited c])).

(** What a call of a method of the class evaluates to: the value that a
    plain [def] returned, or, for an [async def], a coroutine whose body
    has not started. *)
Inductive called (R : Type) : Type :=
| Value (v : R)
| Coroutine (body : M R).
Arguments Value {R} v.
Arguments Coroutine {R} body.

Definition def {R} (body : M R) : M (called R) := v ← body; mret (Value v).
Definition async_def {R} (body : M R) : M (called R) := mret (Coroutine body).

(** A new object with the given attributes. *)
Definition alloc (c : t) : M loc := λ w,
  let self := fresh (dom (contexts w)) in
  (Ok self, World (<[self := c]> (contexts w)) (bots w) (store w) (log w)).

(** [StateContext(message, bot)]: a new object, on which [__init__]
    sets [message], [bot] and [bot_id = self.bot.bot_id]. *)
Definition __init__ (message : Message + CallbackQuery) (bot : loc) : M loc :=
  bot_id ← getattr_bot_id bot;
  alloc (Build message bot bot_id).

(** [resolve_context(self.message, self.bot.bot_id)] *)
Definition resolve (self : loc) : M context_tuple :=
  message ← getattr self message;
  bot ← getattr self bot;
  bot_id ← getattr_bot_id bot;
  mret (resolve_context message bot_id).

Definition set (self : loc) (state : pyval) : M (called pyval) :=
  async_def (
    '(chat_id, user_id, business_connection_id, bot_id, message_thread_id) ←
      resolve self;
    let state := if isinstance_State state then State_name state else state in
    bot ← getattr self bot;
    c ← call_method bot "set_state"
          [("chat_id", chat_id);
           ("user_id", user_id);
           ("state", state);
           ("business_connection_id", business_connection_id);
           ("bot_id", bot_id);
           ("message_thread_id", message_thread_id)] [];
    await c).

Definition get (self : loc) : M (called pyval) :=
  async_def (
    '(chat_id, user_id, business_connection_id, bot_id, message_thread_id) ←
      resolve self;
    bot ← getattr self bot;
    c ← call_method bot "get_state"
          [("chat_id", chat_id);
           ("user_id", user_id);
           ("business_connection_id", business_connection_id);
           ("bot_id", bot_id);
           ("message_thread_id", message_thread_id)] [];
    await c).

Definition delete (self : loc) : M (called pyval) :=
  async_def (
    '(chat_id, user_id, business_connection_id, bot_id, message_thread_id) ←
      resolve self;
    bot ← getattr self bot;
    c ← call_method bot "delete_state"
          [("chat_id", chat_id);
           ("user_id", user_id);
           ("business_connection_id", business_connection_id);
           ("bot_id", bot_id);
           ("message_thread_id", message_thread_id)] [];
    await c).

Definition reset_data (self : loc) : M (called pyval) :=
  async_def (
    '(chat_id, user_id, business_connection_id, bot_id, message_thread_id) ←
      resolve self;
    bot ← getattr self bot;
    c ← call_method bot "reset_data"
          [("chat_id", chat_id);
           ("user_id", user_id);
           ("business_connection_id", business_connection_id);
           ("bot_id", bot_id);
           ("message_thread_id", message_thread_id)] [];
    await c).

Definition data (self : loc) : M (called pyval) :=
  def (
    '(chat_id, user_id, business_connection_id, bot_id, message_thread_id) ←
      resolve self;
    bot ← getattr self bot;
    call_method bot "retrieve_data"
      [("chat_id", chat_id);
       ("user_id", user_id);
       ("business_connection_id", business_connection_id);
       ("bot_id", bot_id);
       ("message_thread_id", message_thread_id)] []).

(** The parameters are [(self, **kwargs)]: the caller's keywords are
    bound first, and where they cannot be Python raises [TypeError] at the
    call, before there is a coroutine. *)
Definition add_data (self : loc) (kwargs : kwargs) : M (called pyval) :=
  match binding_error kwargs with
  | Some k => raise (TypeError k)
  | None =>
  async_def (
    '(chat_id, user_id, business_connection_id, bot_id, message_thread_id) ←
      resolve self;
    bot ← getattr self bot;
    c ← call_method bot "add_data"
          [("chat_id", chat_id);
           ("user_id", user_id);
           ("business_connection_id", business_connection_id);
           ("bot_id", bot_id);
           ("message_thread_id", message_thread_id)] kwargs;
    await c)
  end.

End Class.

Arguments Value {T R} v.
Arguments Coroutine {T R} body.

End StateContext.

Import StateContext.

(** ** The six operations, as one family *)

Inductive operation : Type :=
| OpSet (state : pyval)
| OpGet
| OpDelete
| OpResetData
| OpData
| OpAddData (kwargs : kwargs).

Section Operations.
Context `{T : Telebot}.

(** The call [self.op(...)]. *)
Definition perform (self : loc) (o : operation) : M (called pyval) :=
  match o with
  | OpSet state => StateContext.set self state
  | OpGet => StateContext.get self
  | OpDelete => StateContext.delete self
  | OpResetData => StateContext.reset_data self
  | OpData => StateContext.data self
  | OpAddData kwargs => StateContext.add_data self kwargs
  end.

(** The caller's part: a coroutine is awaited, a value is taken as it is. *)
Definition finish (r : called pyval) : M pyval :=
  match r with
  | Value v => mret v
  | Coroutine body => body
  end.

(** The operation from the call to its result. *)
Definition run (self : loc) (o : operation) : M pyval :=
  r ← perform self o; finish r.

(** What was asked of the bots between two worlds. *)
Definition since (w w' : world) : list interaction :=
  drop (length (log w)) (log w').

Definition calls (l : list interaction) : list (loc * string * kwargs) :=
  omap (λ i, match i with Called b m kw => Some (b, m, kw) | Awaited _ => None end) l.

Definition awaits (l : list interaction) : list pyval :=
  omap (λ i, match i with Awaited c => Some c | Called _ _ _ => None end) l.
End Operations.

(** ** Vocabulary of the statements *)

(** The method of the bot that stands behind each operation. *)
Definition corresponding (o : operation) : string :=
  match o with
  | OpSet _ => "set_state"
  | OpGet => "get_state"
  | OpDelete => "delete_state"
  | OpResetData => "reset_data"
  | OpData => "retrieve_data"
  | OpAddData _ => "add_data"
  end.

(** The methods of the bot that the class calls. *)
Definition storage_methods : list string :=
  ["set_state"; "get_state"; "delete_state"; "reset_data"; "retrieve_data"; "add_data"].

(** The five keywords that carry the addressing tuple, in the order of the
    tuple. *)
Definition addressing_names : list string :=
  ["chat_id"; "user_id"; "business_connection_id"; "bot_id"; "message_thread_id"].

Definition addressing (kw : kwargs) : list (option pyval) :=
  (λ k, kwlookup k kw) <$> addressing_names.

Definition components (t : context_tuple) : list pyval :=
  let '(chat_id, user_id, business_connection_id, bot_id, message_thread_id) := t in
  [chat_id; user_id; business_connection_id; bot_id; message_thread_id].

(** The keywords of a call other than the addressing ones. *)
Definition payload (kw : kwargs) : kwargs :=
  List.filter (λ kv, negb (bool_decide (kv.1 ∈ addressing_names))) kw.


(** The caller's arguments can be bound to the parameters of the method:
    the keywords of [add_data] do not name [self] and none is given
    twice.  The other operations take no keywords of the caller's
    choice. *)
Definition bound (o : operation) : bool :=
  match o with
  | OpAddData kwargs => bool_decide (binding_error kwargs = None)
  | _ => true
  end.

(** The caller's keywords of [add_data] leave the five addressing names
    alone. *)
Definition unclashed (o : operation) : bool :=
  match o with
  | OpAddData kwargs =>
      forallb (λ k, negb (bool_decide (k ∈ addressing_names))) (kwnames kwargs)
  | _ => true
  end.

(** The caller's keywords can be bound and name no addressing keyword:
    the arguments that get as far as the call of the bot. *)
Definition plain (o : operation) : bool := bound o && unclashed o.

(** ** One call, then at most one await *)

Section Delegation.
Context `{T : Telebot}.

(** The keywords each operation writes out in its call, given the
    resolved tuple. *)
Definition written (o : operation) (t : context_tuple) : kwargs :=
  let '(chat_id, user_id, business_connection_id, bot_id, message_thread_id) := t in
  match o with
  | OpSet state =>
      [("chat_id", chat_id);
       ("user_id", user_id);
       ("state", if isinstance_State state then State_name state else state);
       ("business_connection_id", business_connection_id);
       ("bot_id", bot_id);
       ("message_thread_id", message_thread_id)]
  | _ =>
      [("chat_id", chat_id);
       ("user_id", user_id);
       ("business_connection_id", business_connection_id);
       ("bot_id", bot_id);
       ("message_thread_id", message_thread_id)]
  end.

(** The mapping each operation passes on with a double star. *)
Definition starred (o : operation) : kwargs :=
  match o with OpAddData kwargs => kwargs | _ => [] end.

(** The operations whose body awaits what the bot returned. *)
Definition awaited (o : operation) : bool :=
  match o with OpData => false | _ => true end.

(** What the storage layer answers to a call, awaited or not: the
    result or the exception, and the bots and the storage afterwards. *)
Definition answer (b : loc) (m : string) (kw : kwargs) (aw : bool)
    (e : gmap loc AsyncTeleBot.t * storage) :
    result pyval * (gmap loc AsyncTeleBot.t * storage) :=
  let '(r, e1) := invoke b m kw e in
  match r with
  | Ok c => if aw then resume c e1 else (Ok c, e1)
  | Raised x => (Raised x, e1)
  end.

(** What is written to the log on the way. *)
Definition exchange (b : loc) (m : string) (kw : kwargs) (aw : bool)
    (e : gmap loc AsyncTeleBot.t * storage) : list interaction :=
  Called b m kw ::
  match (invoke b m kw e).1 with
  | Ok c => if aw then [Awaited c] else []
  | Raised _ => []
  end.

(** A single delegation: merge the keywords, call, await if asked to. *)
Definition delegate (b : loc) (m : string) (explicit star : kwargs) (aw : bool) :
    M pyval :=
  c ← call_method b m explicit star;
  if aw then await c else mret c.
End Delegation.

(** ** Predicates of the statements *)

Section Statements.
Context `{T : Telebot}.

(** The context object is there and its bot still has a [bot_id]. *)
Definition live (w : world) (self : loc) (c : StateContext.t)
    (b : AsyncTeleBot.t) : Prop :=
  contexts w !! self = Some c ∧ bots w !! bot c = Some b.

(** The call of the operation does nothing but hand out a coroutine. *)
Definition asynchronous (self : loc) (o : operation) (w : world) : Prop :=
  ∃ body, perform self o w = (Ok (Coroutine body), w).

(** Whatever a call of the operation got back from the bot is awaited
    before the operation has its result. *)
Definition awaits_its_call (self : loc) (o : operation) (w : world) : Prop :=
  ∀ b m kw c,
    (b, m, kw) ∈ calls (since w (run self o w).2) →
    (invoke b m kw (bots w, store w)).1 = Ok c →
    c ∈ awaits (since w (run self o w).2).



(** Every call carries a chat id, a user id and a bot id other than
    [None]. *)
Definition supplies_ids (self : loc) (o : operation) (w : world) : Prop :=
  ∀ b m kw,
    (b, m, kw) ∈ calls (since w (run self o w).2) →
    ∀ k, k ∈ ["chat_id"; "user_id"; "bot_id"] →
         ∃ v, kwlookup k kw = Some v ∧ v ≠ PNone.

(** The world after a sequence of operations on one context, each run
    to its end, whatever it returned or raised. *)
Fixpoint history (self : loc) (os : list operation) (w : world) : world :=
  match os with
  | [] => w
  | o :: os' => history self os' (run self o w).2
  end.

(** A computation that leaves every [StateContext] as it was. *)
Definition frame {R} (m : M R) : Prop :=
  ∀ w, contexts (m w).2 = contexts w.

End Statements.

(** ** A test double *)

Module Demo.

(** Messages carry a chat and a sender; callback queries carry in
    addition the business connection and the topic they came from. *)
Definition message : Type := Z * Z.
Definition callback_query : Type := Z * Z * string * Z.

Definition resolve (m : message + callback_query) (bot_id : pyval) : context_tuple :=
  match m with
  | inl (chat, user) => (PInt chat, PInt user, PNone, bot_id, PNone)
  | inr (chat, user, business, topic) =>
      (PInt chat, PInt user, PStr business, bot_id, PInt topic)
  end.

(** The storage layer remembers the coroutines it handed out.  Its
    [retrieve_data] returns a context manager at once, the other methods
    return coroutines; awaiting [reset_data] fails, awaiting [get_state]
    gives a state name, the others give [True]. *)
Definition invoke (b : loc) (m : string) (kw : kwargs)
    (e : gmap loc AsyncTeleBot.t * list string) :
    result pyval * (gmap loc AsyncTeleBot.t * list string) :=
  if bool_decide (m ∈ storage_methods) then
    if String.eqb m "retrieve_data" then (Ok (PObj 1000%positive), e)
    else (Ok (PObj (Pos.of_succ_nat (length e.2))), (e.1, e.2 ++ [m]))
  else (Raised (AttributeError m), e).

Definition resume (c : pyval) (e : gmap loc AsyncTeleBot.t * list string) :
    result pyval * (gmap loc AsyncTeleBot.t * list string) :=
  match c with
  | PObj i =>
      match e.2 !! Nat.pred (Pos.to_nat i) with
      | Some m =>
          if String.eqb m "reset_data" then (Raised (Exception (PStr "storage offline")), e)
          else if String.eqb m "get_state" then (Ok (PStr "Registration:name"), e)
          else (Ok (PBool true), e)
      | None => (Raised (TypeError "await"), e)
      end
  | _ => (Raised (TypeError "await"), e)
  end.

Definition telebot : Telebot :=
  Build_Telebot message callback_query resolve (list string) invoke resume.

(** One bot at address 7, whose id was 41 and is now 42, and two
    contexts built when the id was 41: at address 1 for a message of
    user 5 in chat 11, at address 2 for a callback query of the same
    user in the same chat, from topic 3 of business connection "biz". *)
Definition the_bot : AsyncTeleBot.t := AsyncTeleBot.Build (PInt 42).

Definition ctx : @StateContext.t telebot :=
  StateContext.Build (T := telebot) (inl (11, 5)) 7%positive (PInt 41).

Definition ctx_cb : @StateContext.t telebot :=
  StateContext.Build (T := telebot) (inr (11, 5, "biz", 3)) 7%positive (PInt 41).

Definition w_init : @world telebot :=
  World (T := telebot) ∅ {[ 7%positive := AsyncTeleBot.Build (PInt 41) ]} [] [].

Definition w0 : @world telebot :=
  World (T := telebot) (<[ 2%positive := ctx_cb ]> {[ 1%positive := ctx ]})
        {[ 7%positive := the_bot ]} [] [].

(** What an operation on the context at [self] asks of the bot in [w0]. *)
Definition asked (self : loc) (o : operation) : list (loc * string * kwargs) :=
  calls (since w0 (run (T := telebot) self o w0).2).

(** The same world with a bot whose [bot_id] is [None]. *)
Definition w_anon : @world telebot :=
  World (T := telebot) (<[ 2%positive := ctx_cb ]> {[ 1%positive := ctx ]})
        {[ 7%positive := AsyncTeleBot.Build PNone ]} [] [].

Definition myself : operation := OpAddData [("self", PInt 1)].

(** The same world after the bot has lost its [bot_id]. *)
Definition w_gone : @world telebot :=
  World (T := telebot) (<[ 2%positive := ctx_cb ]> {[ 1%positive := ctx ]}) ∅ [] [].

(** A third context for the message of [ctx], on the same bot, built when
    the bot's id was 99. *)
Definition ctx_stale : @StateContext.t telebot :=
  StateContext.Build (T := telebot) (inl (11, 5)) 7%positive (PInt 99).

Definition w_two : @world telebot :=
  World (T := telebot)
        (<[ 3%positive := ctx_stale ]> (<[ 2%positive := ctx_cb ]> {[ 1%positive := ctx ]}))
        {[ 7%positive := the_bot ]} ["set_state"] [Awaited (PObj 1%positive)].

Definition john : operation := OpAddData [("name", PStr "John")].
Definition registration : pyval := PState (PStr "Registration:name").

End Demo.

(** * Properties *)

Section Facts.
Context `{T : Telebot}.
Implicit Types (w : world) (o : operation) (self : loc).

Lemma bind_raised {A B} (m : M A) (k : A → M B) w e w1 :
  m w = (Raised e, w1) → (m ≫= k) w = (Raised e, w1).
Proof. intros H. unfold mbind, M_bind. by rewrite H. Qed.

Lemma resolve_live w self c b :
  live w self c b →
  resolve self w = (Ok (resolve_context (message c) (AsyncTeleBot.bot_id b)), w).
Proof.
  intros [Hc Hb]. unfold resolve, getattr, getattr_bot_id, mbind, M_bind, mret, M_ret.
  rewrite Hc. simpl. rewrite Hc. simpl. rewrite Hb. reflexivity.
Qed.

(** *** Binding the caller's arguments *)

Lemma bound_add_data kw :
  bound (OpAddData kw) = true → binding_error kw = None.
Proof. apply bool_decide_eq_true. Qed.

Lemma perform_unbound o :
  bound o = false →
  ∃ k, ∀ self w, perform self o w = (Raised (TypeError k), w).
Proof.
  destruct o as [| | | | |kw]; try discriminate.
  intros H%bool_decide_eq_false.
  unfold perform, StateContext.add_data.
  destruct (binding_error kw) as [k|]; [|done]. by exists k.
Qed.

Lemma run_unbound o :
  bound o = false →
  ∃ k, ∀ self w, run self o w = (Raised (TypeError k), w).
Proof.
  intros H. destruct (perform_unbound o H) as [k Hk].
  exists k. intros self w. unfold run. by apply bind_raised.
Qed.

Lemma run_async_def (body : M pyval) w : (async_def body ≫= finish) w = body w.
Proof. reflexivity. Qed.

Lemma run_def (body : M pyval) w : (def body ≫= finish) w = body w.
Proof.
  unfold def, mbind, M_bind, mret, M_ret. by destruct (body w) as [[v|e] w1].
Qed.

(** With arguments that can be bound, an operation starts by resolving
    the tuple. *)
Lemma run_body self o w :
  bound o = true →
  ∃ k : context_tuple → M pyval, run self o w = (resolve self ≫= k) w.
Proof.
  intros Hb.
  destruct o as [| | | | |kw]; unfold run, perform, StateContext.set,
    StateContext.get, StateContext.delete, StateContext.reset_data,
    StateContext.data, StateContext.add_data;
    try rewrite (bound_add_data _ Hb);
    rewrite ?run_async_def, ?run_def; eexists; reflexivity.
Qed.

Lemma run_delegate w self o c b :
  live w self c b → bound o = true →
  run self o w =
  delegate (bot c) (corresponding o)
    (written o (resolve_context (message c) (AsyncTeleBot.bot_id b)))
    (starred o) (awaited o) w.
Proof.
  intros Hl Hbd. pose proof (resolve_live _ _ _ _ Hl) as Hr. destruct Hl as [Hc Hb].
  destruct (resolve_context (message c) (AsyncTeleBot.bot_id b))
    as [[[[chat user] business] botid] thread] eqn:Ht.
  destruct o as [| | | | |kw]; unfold run, perform, StateContext.set, StateContext.get,
    StateContext.delete, StateContext.reset_data, StateContext.data,
    StateContext.add_data;
    try rewrite (bound_add_data _ Hbd);
    unfold async_def, def, finish, delegate;
    unfold mbind, M_bind, mret, M_ret; simpl; rewrite Hr; simpl;
    unfold getattr; rewrite Hc; simpl;
    destruct (call_method _ _ _ _ w) as [[v|e] w1]; reflexivity.
Qed.

Lemma delegate_unfold b m explicit star aw w :
  delegate b m explicit star aw w =
  match merge_keywords explicit star with
  | Raised e => (Raised e, w)
  | Ok kw =>
      let a := answer b m kw aw (bots w, store w) in
      (a.1, World (contexts w) a.2.1 a.2.2
              (log w ++ exchange b m kw aw (bots w, store w)))
  end.
Proof.
  unfold delegate, call_method, await, answer, exchange, mbind, M_bind, mret, M_ret.
  destruct (merge_keywords explicit star) as [kw|e]; [|reflexivity].
  destruct (invoke b m kw (bots w, store w)) as [[c|e] [bs st]]; simpl; [|reflexivity].
  destruct aw; simpl; [|reflexivity].
  destruct (resume c (bs, st)) as [r [bs' st']]; simpl.
  by rewrite <- app_assoc.
Qed.

Lemma kwnames_written o t :
  kwnames (written o t) =
  match o with
  | OpSet _ => ["chat_id"; "user_id"; "state"; "business_connection_id"; "bot_id";
                "message_thread_id"]
  | _ => addressing_names
  end.
Proof. destruct t as [[[[? ?] ?] ?] ?]. by destruct o. Qed.

Lemma merge_keywords_unclashed o t :
  unclashed o = true →
  merge_keywords (written o t) (starred o) = Ok (written o t ++ starred o).
Proof.
  intros Hp. unfold merge_keywords, repeated_keyword.
  rewrite kwnames_written.
  destruct o as [| | | | |kw]; try reflexivity.
  simpl in *. induction (kwnames kw) as [|k ks IH]; [done|].
  simpl in *. apply andb_prop in Hp as [Hk Hks].
  apply negb_true_iff in Hk. rewrite Hk. by apply IH.
Qed.

Lemma merge_keywords_clash o t :
  unclashed o = false →
  ∃ k, k ∈ addressing_names ∧
       merge_keywords (written o t) (starred o) = Raised (TypeError k).
Proof.
  intros Hp. unfold merge_keywords, repeated_keyword.
  rewrite kwnames_written.
  destruct o as [| | | | |kw]; try discriminate.
  simpl in *. induction (kwnames kw) as [|k ks IH]; [done|].
  simpl in *. destruct (bool_decide (k ∈ addressing_names)) eqn:Hk.
  - exists k. split; [by apply bool_decide_eq_true in Hk | done].
  - simpl in Hp. by apply IH.
Qed.

Lemma plain_true o : plain o = true ↔ bound o = true ∧ unclashed o = true.
Proof. unfold plain. apply andb_true_iff. Qed.

Lemma addressing_written o t star :
  addressing (written o t ++ star) = Some <$> components t.
Proof. destruct t as [[[[? ?] ?] ?] ?]. by destruct o. Qed.

Lemma since_app w cs bs st l :
  since w (World cs bs st (log w ++ l)) = l.
Proof. unfold since. simpl. by rewrite drop_app_length. Qed.

Lemma since_refl w : since w w = [].
Proof. unfold since. by rewrite drop_all. Qed.

Lemma calls_exchange b m kw aw e :
  calls (exchange b m kw aw e) = [(b, m, kw)].
Proof.
  unfold exchange, calls. simpl.
  destruct (invoke b m kw e).1; [destruct aw|]; reflexivity.
Qed.

(** *** The whole of an operation *)

Lemma run_plain w self o c b :
  live w self c b → plain o = true →
  let kw := written o (resolve_context (message c) (AsyncTeleBot.bot_id b)) ++ starred o in
  let a := answer (bot c) (corresponding o) kw (awaited o) (bots w, store w) in
  run self o w =
  (a.1, World (contexts w) a.2.1 a.2.2
          (log w ++ exchange (bot c) (corresponding o) kw (awaited o) (bots w, store w))).
Proof.
  intros Hl [Hb Hu]%plain_true. simpl.
  by rewrite (run_delegate _ _ _ _ _ Hl Hb), delegate_unfold,
       (merge_keywords_unclashed _ _ Hu).
Qed.

Lemma run_clash w self o c b :
  live w self c b → plain o = false →
  ∃ k, run self o w = (Raised (TypeError k), w).
Proof.
  intros Hl Hp. destruct (bound o) eqn:Hb.
  - assert (unclashed o = false) as Hu.
    { unfold plain in Hp. by rewrite Hb in Hp. }
    destruct (merge_keywords_clash o
                (resolve_context (message c) (AsyncTeleBot.bot_id b)) Hu)
      as (k & Hk & Hm).
    exists k.
    by rewrite (run_delegate _ _ _ _ _ Hl Hb), delegate_unfold, Hm.
  - destruct (run_unbound o Hb) as [k Hk]. by exists k.
Qed.

Lemma since_run_plain w self o c b :
  live w self c b → plain o = true →
  since w (run self o w).2 =
  exchange (bot c) (corresponding o)
    (written o (resolve_context (message c) (AsyncTeleBot.bot_id b)) ++ starred o)
    (awaited o) (bots w, store w).
Proof.
  intros Hl Hp. rewrite (run_plain _ _ _ _ _ Hl Hp). simpl. apply since_app.
Qed.

(** The calls an operation makes: none when the caller's keywords name
    [self] or repeat a written keyword, and the single call of the
    corresponding method otherwise. *)
Lemma calls_run w self o c b :
  live w self c b →
  let t := resolve_context (message c) (AsyncTeleBot.bot_id b) in
  calls (since w (run self o w).2) =
  if plain o then [(bot c, corresponding o, written o t ++ starred o)] else [].
Proof.
  intros Hl t. destruct (plain o) eqn:Hp.
  - by rewrite (since_run_plain _ _ _ _ _ Hl Hp), calls_exchange.
  - destruct (run_clash _ _ _ _ _ Hl Hp) as (k & ->). simpl.
    by rewrite since_refl.
Qed.


(** *** The frame: no operation writes to a context *)

Lemma frame_ret {R} (v : R) : frame (mret v).
Proof. by intros w. Qed.

Lemma frame_raise {R} (e : exn) : frame (raise (R := R) e).
Proof. by intros w. Qed.

Lemma frame_bind {A B} (m : M A) (k : A → M B) :
  frame m → (∀ a, frame (k a)) → frame (m ≫= k).
Proof.
  intros Hm Hk w. unfold mbind, M_bind.
  specialize (Hm w). destruct (m w) as [[a|e] w1]; simpl in *; [|done].
  by rewrite Hk.
Qed.

Lemma frame_getattr {A} self (f : StateContext.t → A) : frame (getattr self f).
Proof. intros w. unfold getattr. by destruct (contexts w !! self). Qed.

Lemma frame_getattr_bot_id b : frame (getattr_bot_id b).
Proof. intros w. unfold getattr_bot_id. by destruct (bots w !! b). Qed.

Lemma frame_call_method b m explicit star : frame (call_method b m explicit star).
Proof.
  intros w. unfold call_method. destruct (merge_keywords explicit star); [|done].
  by destruct (invoke _ _ _ _) as [r [bs st]].
Qed.

Lemma frame_await c : frame (await c).
Proof. intros w. unfold await. by destruct (resume _ _) as [r [bs st]]. Qed.

Ltac frame_step :=
  first
    [ apply frame_ret | apply frame_getattr | apply frame_getattr_bot_id
    | apply frame_call_method | apply frame_await
    | apply frame_bind; [|intros ?] ].

Lemma frame_resolve self : frame (resolve self).
Proof. unfold resolve. repeat frame_step. Qed.

Lemma frame_perform self o : frame (perform self o).
Proof.
  destruct o as [| | | | |kw]; simpl;
    unfold StateContext.set, StateContext.get, StateContext.delete,
    StateContext.reset_data, StateContext.data, StateContext.add_data, async_def, def;
    try apply frame_ret.
  - apply frame_bind; [|intros; apply frame_ret].
    apply frame_bind; [apply frame_resolve|]. intros [[[[? ?] ?] ?] ?].
    repeat frame_step.
  - destruct (binding_error kw); [apply frame_raise | apply frame_ret].
Qed.

Lemma frame_run self o : frame (run self o).
Proof.
  intros w. destruct (bound o) eqn:Hb;
    [|destruct (run_unbound o Hb) as [k Hk]; by rewrite Hk].
  destruct o as [| | | | |kw]; unfold run, perform, StateContext.set, StateContext.get,
    StateContext.delete, StateContext.reset_data, StateContext.data,
    StateContext.add_data;
    try rewrite (bound_add_data _ Hb);
    rewrite ?run_async_def, ?run_def;
    match goal with
    | |- contexts (?m w).2 = contexts w => revert w; change (frame m)
    end;
    (apply frame_bind; [apply frame_resolve|]; intros [[[[? ?] ?] ?] ?];
     repeat frame_step).
Qed.

(** C10. No operation writes to a [StateContext]: after the call of any
    of the six operations, and after the operation has run to its result,
    every context object, the one the operation was called on included,
    has the [message], [bot] and [bot_id] it had before. *)
Theorem context_object_unchanged w self o :
  contexts (perform self o w).2 = contexts w ∧
  contexts (run self o w).2 = contexts w ∧
  message <$> contexts (run self o w).2 !! self = message <$> contexts w !! self ∧
  bot <$> contexts (run self o w).2 !! self = bot <$> contexts w !! self ∧
  bot_id <$> contexts (run self o w).2 !! self = bot_id <$> contexts w !! self.
Proof.
  pose proof (frame_run self o w) as Hr.
  split; [apply frame_perform|]. by rewrite Hr.
Qed.

(** C5. What the storage call raises or returns is what the operation
    raises or returns.  For every call an operation makes: when the call
    itself raises, the operation raises the same exception and has asked
    nothing else of the bot; when the call returns, the operation (all but
    [data]) awaits the returned object once and its outcome, exception or
    value, is the outcome of that await; [data] returns the object as it
    is.  The call is made when the caller's keywords name neither [self]
    nor an addressing keyword; an operation that makes no call has raised
    [TypeError] and asked nothing. *)
Theorem storage_outcome_propagates w self o c b :
  live w self c b →
  let asked := calls (since w (run self o w).2) in
  (∀ b' m kw,
     (b', m, kw) ∈ asked →
     match invoke b' m kw (bots w, store w) with
     | (Raised x, _) =>
         (run self o w).1 = Raised x ∧
         since w (run self o w).2 = [Called b' m kw]
     | (Ok v, e) =>
         if awaited o then
           (run self o w).1 = (resume v e).1 ∧
           since w (run self o w).2 = [Called b' m kw; Awaited v]
         else
           (run self o w).1 = Ok v ∧
           since w (run self o w).2 = [Called b' m kw]
     end) ∧
  (plain o = true → length asked = 1%nat) ∧
  (asked = [] → ∃ k, run self o w = (Raised (TypeError k), w)).
Proof.
  intros Hl asked. subst asked.
  pose proof (calls_run _ _ o _ _ Hl) as Hc. simpl in Hc.
  destruct (plain o) eqn:Hp; rewrite Hc.
  - split; [|split; [done|discriminate]].
    intros b' m kw [= -> -> ->]%list_elem_of_singleton.
    rewrite (since_run_plain _ _ _ _ _ Hl Hp).
    rewrite (run_plain _ _ _ _ _ Hl Hp). unfold answer, exchange. simpl.
    destruct (invoke _ _ _ _) as [[v|x] e]; simpl; [|done].
    by destruct (awaited o).
  - split; [by intros b' m kw ?%elem_of_nil|]. split; [discriminate|].
    intros _. destruct (run_clash _ _ _ _ _ Hl Hp) as (k & Hk). by exists k.
Qed.

(** C8. [set] called with a [State] object passes the object's [name] as
    [state]; called with a string it passes the string; either way it
    makes the one call of [set_state] and returns what awaiting that call
    returns. *)
Theorem set_normalises_state w self c b :
  live w self c b →
  (∀ name,
     let r := run self (OpSet (PState name)) w in
     ∃ kw, calls (since w r.2) = [(bot c, "set_state", kw)] ∧
           kwlookup "state" kw = Some name ∧
           r.1 = (answer (bot c) "set_state" kw true (bots w, store w)).1) ∧
  (∀ s,
     let r := run self (OpSet (PStr s)) w in
     ∃ kw, calls (since w r.2) = [(bot c, "set_state", kw)] ∧
           kwlookup "state" kw = Some (PStr s) ∧
           r.1 = (answer (bot c) "set_state" kw true (bots w, store w)).1).
Proof.
  intros Hl. split; intros x r; subst r;
    match goal with
    | |- context [run self ?o w] => rewrite (run_plain w self o c b Hl eq_refl)
    end; simpl;
    rewrite since_app, calls_exchange;
    destruct (resolve_context (message c) (AsyncTeleBot.bot_id b))
      as [[[[chat user] business] botid] thread];
    eexists; (split; [reflexivity|]); split; reflexivity.
Qed.

(** *** Keywords other than the addressing ones *)



Lemma addressing_keywords_written o t :
  unclashed o = true →
  List.filter (λ k, bool_decide (k ∈ addressing_names)) (kwnames (written o t ++ starred o))
  = addressing_names.
Proof.
  intros Hp. unfold kwnames. rewrite fmap_app, List.filter_app.
  fold (kwnames (written o t)). rewrite kwnames_written.
  destruct o as [state| | | | |kw]; try reflexivity.
  simpl in *. fold (kwnames kw).
  induction (kwnames kw) as [|k ks IH]; [done|].
  simpl in Hp. apply andb_prop in Hp as [Hk Hks].
  apply negb_true_iff in Hk. simpl. rewrite Hk. by apply IH.
Qed.


(** C2, as the code has it. [set], [get], [delete], [reset_data] and
    [add_data] are coroutine functions: their call, once the caller's
    arguments are bound, does nothing but hand out a coroutine, and the
    coroutine awaits what its call of the bot returned.  [add_data] given
    a keyword [self] raises [TypeError] at the call and hands out no
    coroutine.  [data] is a plain function: its call makes the call of
    [retrieve_data] at once and returns the object it got, which is never
    awaited.  In every case the call of the bot, and the await where there
    is one, are all that is asked of the outside. *)
Theorem asynchronous_except_data w self o c b :
  live w self c b →
  let kw := written o (resolve_context (message c) (AsyncTeleBot.bot_id b)) ++ starred o in
  (o ≠ OpData → bound o = true →
     asynchronous self o w ∧ awaits_its_call self o w) ∧
  (bound o = false →
     (∃ k, perform self o w = (Raised (TypeError k), w)) ∧ ¬ asynchronous self o w) ∧
  (o = OpData →
     ¬ asynchronous self o w ∧
     awaits (since w (run self o w).2) = [] ∧
     match invoke (bot c) "retrieve_data" kw (bots w, store w) with
     | (Ok v, (bs, st)) =>
         perform self o w =
         (Ok (Value v),
          World (contexts w) bs st (log w ++ [Called (bot c) "retrieve_data" kw]))
     | (Raised x, (bs, st)) =>
         perform self o w =
         (Raised x,
          World (contexts w) bs st (log w ++ [Called (bot c) "retrieve_data" kw]))
     end) ∧
  (plain o = true →
     since w (run self o w).2 =
     exchange (bot c) (corresponding o) kw (awaited o) (bots w, store w)) ∧
  (plain o = false → since w (run self o w).2 = []).
Proof.
  intros Hl kw. split; [|split; [|split; [|split]]].
  - intros Hd Hbd. split.
    + destruct o as [| | | | |kw']; try done; try (eexists; reflexivity).
      unfold asynchronous, perform, StateContext.add_data.
      rewrite (bound_add_data _ Hbd). eexists; reflexivity.
    + intros b' m' kw' v Hin Hinv.
      rewrite (calls_run _ _ _ _ _ Hl) in Hin. fold kw in Hin.
      destruct (plain o) eqn:Hp; [|by apply elem_of_nil in Hin].
      apply list_elem_of_singleton in Hin. injection Hin as -> -> ->.
      rewrite (since_run_plain _ _ _ _ _ Hl Hp). fold kw.
      unfold exchange. rewrite Hinv.
      destruct o; try done; simpl; apply list_elem_of_singleton; reflexivity.
  - intros Hbd. destruct (perform_unbound o Hbd) as [k Hpf].
    split; [by exists k|]. intros [body Hb]. rewrite Hpf in Hb. discriminate.
  - intros ->. split; [|split].
    + intros [body Hb]. revert Hb.
      unfold perform, StateContext.data, def.
      unfold mbind at 1. unfold M_bind at 1.
      match goal with
      | |- context [match ?m w with _ => _ end] => destruct (m w) as [[v|x] w1]
      end; discriminate.
    + rewrite (since_run_plain w self OpData c b Hl eq_refl). unfold exchange. simpl.
      by destruct (invoke _ _ _ _).1.
    + pose proof (resolve_live _ _ _ _ Hl) as Hres. destruct Hl as [Hc Hb].
      subst kw. simpl starred. rewrite app_nil_r.
      unfold perform, StateContext.data, def, mbind, M_bind, mret, M_ret.
      rewrite Hres.
      destruct (resolve_context (message c) (AsyncTeleBot.bot_id b))
        as [[[[chat user] business] botid] thread].
      simpl. unfold getattr. rewrite Hc. unfold call_method. simpl.
      by destruct (invoke _ _ _ _) as [[v|x] [bs st]].
  - intros Hp. apply (since_run_plain _ _ _ _ _ Hl Hp).
  - intros Hp. destruct (run_clash _ _ _ _ _ Hl Hp) as (k & ->). apply since_refl.
Qed.

(** *** The methods behind the operations *)





(** C6, as the code has it. The key of every call is the resolved tuple,
    five components passed under the five names [chat_id], [user_id],
    [business_connection_id], [bot_id], [message_thread_id], written in
    that order and each taken from the position of the tuple with the same
    rank, as [resolve_context] returned it.  The class supplies and checks
    none of them: a component that is [None] in the tuple is [None] in the
    call, whichever it is; where [resolve_context] hands the bot's id
    through, the [bot_id] of the call is the id the bot has, [None] when
    the bot has none. *)
Theorem addressing_tuple_shape w self o c b :
  live w self c b →
  let asked := calls (since w (run self o w).2) in
  Forall (λ '(_, _, kw),
    ∃ chat_id user_id business bot_id thread : pyval,
      resolve_context (message c) (AsyncTeleBot.bot_id b)
        = (chat_id, user_id, business, bot_id, thread) ∧
      List.filter (λ k, bool_decide (k ∈ addressing_names)) (kwnames kw)
        = addressing_names ∧
      addressing kw =
        [Some chat_id; Some user_id; Some business; Some bot_id; Some thread])
    asked
  ∧ length addressing_names = 5%nat
  ∧ (plain o = true → length asked = 1%nat)
  ∧ (∀ chat user business thread,
       resolve_context (message c) (AsyncTeleBot.bot_id b)
         = (chat, user, business, AsyncTeleBot.bot_id b, thread) →
       Forall (λ '(_, _, kw),
                 kwlookup "bot_id" kw = Some (AsyncTeleBot.bot_id b)) asked).
Proof.
  intros Hl asked. subst asked. rewrite (calls_run _ _ _ _ _ Hl).
  destruct (plain o) eqn:Hp; [|by repeat constructor].
  pose proof (proj1 (plain_true o) Hp) as [_ Hu].
  pose proof (addressing_written o
    (resolve_context (message c) (AsyncTeleBot.bot_id b)) (starred o)) as Ha.
  pose proof (addressing_keywords_written o
    (resolve_context (message c) (AsyncTeleBot.bot_id b)) Hu) as Hf.
  remember (written o (resolve_context (message c) (AsyncTeleBot.bot_id b))
            ++ starred o) as kw eqn:Hkw.
  clear Hkw.
  split; [|split; [done|split; [done|]]].
  - apply Forall_singleton.
    destruct (resolve_context (message c) (AsyncTeleBot.bot_id b))
      as [[[[chat user] business] botid] thread].
    by exists chat, user, business, botid, thread.
  - intros chat user business thread Ht. apply Forall_singleton.
    rewrite Ht in Ha. unfold addressing in Ha. simpl in Ha.
    by injection Ha as _ _ _ Hid _.
Qed.

Lemma addressing_of_call w self o c b call :
  live w self c b →
  call ∈ calls (since w (run self o w).2) →
  addressing call.2 =
  Some <$> components (resolve_context (message c) (AsyncTeleBot.bot_id b)).
Proof.
  intros Hl. rewrite (calls_run _ _ _ _ _ Hl).
  destruct (plain o); [|by intros ?%elem_of_nil].
  intros ->%list_elem_of_singleton. apply addressing_written.
Qed.

Lemma history_contexts self os w : contexts (history self os w) = contexts w.
Proof.
  revert w. induction os as [|o os IH]; intros w; [done|].
  simpl. rewrite IH. apply frame_run.
Qed.

(** C7. The key depends on the stored message and on the bot's id, and
    on nothing else.  Two operations, the same or not, on the same context
    or on two, in two worlds that may differ in everything the bot and the
    storage layer have done before, pass the same addressing keywords as
    soon as the stored messages are equal and the bots' ids are equal.  In
    particular the operations performed on a context before do not show:
    they leave the stored message as it is, and as long as the bot has
    kept its id an operation passes the key it would have passed at the
    start. *)
Theorem addressing_deterministic w1 w2 self1 self2 c1 c2 b1 b2 o1 o2 :
  live w1 self1 c1 b1 → live w2 self2 c2 b2 →
  message c1 = message c2 →
  AsyncTeleBot.bot_id b1 = AsyncTeleBot.bot_id b2 →
  (∀ call1 call2,
     call1 ∈ calls (since w1 (run self1 o1 w1).2) →
     call2 ∈ calls (since w2 (run self2 o2 w2).2) →
     addressing call1.2 = addressing call2.2 ∧
     addressing call1.2 =
       Some <$> components (resolve_context (message c1) (AsyncTeleBot.bot_id b1))) ∧
  (∀ os b' call1 call2,
     let w' := history self1 os w1 in
     bots w' !! bot c1 = Some b' →
     AsyncTeleBot.bot_id b' = AsyncTeleBot.bot_id b1 →
     call1 ∈ calls (since w1 (run self1 o1 w1).2) →
     call2 ∈ calls (since w' (run self1 o2 w').2) →
     contexts w' !! self1 = Some c1 ∧
     addressing call1.2 = addressing call2.2).
Proof.
  intros Hl1 Hl2 Hm Hb. split.
  - intros call1 call2 H1 H2.
    rewrite (addressing_of_call _ _ _ _ _ _ Hl1 H1).
    rewrite (addressing_of_call _ _ _ _ _ _ Hl2 H2).
    by rewrite Hm, Hb.
  - intros os b' call1 call2 w' Hb' Hid H1 H2.
    assert (contexts w' !! self1 = Some c1) as Hc'.
    { subst w'. rewrite history_contexts. apply Hl1. }
    split; [done|].
    assert (live w' self1 c1 b') as Hl' by done.
    rewrite (addressing_of_call _ _ _ _ _ _ Hl1 H1).
    rewrite (addressing_of_call _ _ _ _ _ _ Hl' H2).
    by rewrite Hid.
Qed.

(** *** The cached id *)

Lemma init_unfold msg bt w0 self w1 :
  __init__ msg bt w0 = (Ok self, w1) →
  ∃ b0, bots w0 !! bt = Some b0 ∧
        self = fresh (dom (contexts w0)) ∧
        w1 = World (<[self := StateContext.Build msg bt (AsyncTeleBot.bot_id b0)]>
                      (contexts w0))
                   (bots w0) (store w0) (log w0).
Proof.
  unfold __init__, getattr_bot_id, alloc, mbind, M_bind.
  destruct (bots w0 !! bt) as [b0|]; [|discriminate].
  intros [= <- <-]. by exists b0.
Qed.

(** The cached field does not reach the outcome of an operation, nor
    what it asks of the bot, nor the bots and the storage afterwards. *)
Lemma run_ignores_cached_bot_id w self o c b z :
  live w self c b →
  let w' := World (<[self := StateContext.Build (message c) (bot c) z]> (contexts w))
                  (bots w) (store w) (log w) in
  (run self o w').1 = (run self o w).1 ∧
  log (run self o w').2 = log (run self o w).2 ∧
  bots (run self o w').2 = bots (run self o w).2 ∧
  store (run self o w').2 = store (run self o w).2.
Proof.
  intros Hl w'.
  destruct (bound o) eqn:Hbd;
    [|destruct (run_unbound o Hbd) as [k Hk]; by rewrite !Hk].
  assert (live w' self (StateContext.Build (message c) (bot c) z) b) as Hl'.
  { split; [apply lookup_insert_eq | apply Hl]. }
  rewrite (run_delegate _ _ _ _ _ Hl Hbd), (run_delegate _ _ _ _ _ Hl' Hbd),
    !delegate_unfold.
  simpl. by destruct (merge_keywords _ _).
Qed.

(** C9. The constructor stores the id the bot has at that moment in
    [bot_id], and no operation reads it back.  An operation on the context
    resolves the tuple with the id the bot has when the operation runs,
    whatever the id was at construction; where [resolve_context] hands the
    id through, that current id is the [bot_id] keyword of the call.
    Overwriting the cached field with any value changes neither the
    outcome of an operation nor what it asks of the bot. *)
Theorem cached_bot_id_is_not_read w0 msg bt self w1 :
  __init__ msg bt w0 = (Ok self, w1) →
  (∃ b0, bots w0 !! bt = Some b0 ∧
         contexts w1 !! self
           = Some (StateContext.Build msg bt (AsyncTeleBot.bot_id b0))) ∧
  ∀ w b o,
    contexts w !! self = contexts w1 !! self →
    bots w !! bt = Some b →
    let asked := calls (since w (run self o w).2) in
    Forall (λ '(b', _, kw),
              b' = bt ∧
              addressing kw
                = Some <$> components (resolve_context msg (AsyncTeleBot.bot_id b)))
           asked ∧
    (plain o = true → length asked = 1%nat) ∧
    (∀ chat user business thread,
       resolve_context msg (AsyncTeleBot.bot_id b)
         = (chat, user, business, AsyncTeleBot.bot_id b, thread) →
       Forall (λ '(_, _, kw),
                 kwlookup "bot_id" kw = Some (AsyncTeleBot.bot_id b)) asked) ∧
    (∀ z,
       let w' := World (<[self := StateContext.Build msg bt z]> (contexts w))
                       (bots w) (store w) (log w) in
       (run self o w').1 = (run self o w).1 ∧
       log (run self o w').2 = log (run self o w).2 ∧
       bots (run self o w').2 = bots (run self o w).2 ∧
       store (run self o w').2 = store (run self o w).2).
Proof.
  intros (b0 & Hb0 & Hself & ->)%init_unfold. simpl.
  rewrite lookup_insert_eq. split; [by exists b0|].
  intros w b o Hc Hb.
  assert (live w self (StateContext.Build msg bt (AsyncTeleBot.bot_id b0)) b) as Hl
    by done.
  rewrite (calls_run _ _ _ _ _ Hl). simpl.
  split; [|split; [|split]].
  - destruct (plain o); repeat constructor. apply addressing_written.
  - by intros ->.
  - intros chat user business thread Ht.
    destruct (plain o); repeat constructor.
    pose proof (addressing_written o
      (resolve_context msg (AsyncTeleBot.bot_id b)) (starred o)) as Ha.
    rewrite Ht in Ha at 2. unfold addressing in Ha. simpl in Ha.
    by injection Ha as _ _ _ Hid _.
  - intros z. apply (run_ignores_cached_bot_id w self o _ b z Hl).
Qed.

End Facts.

(** * Further properties of the class *)

Section Coverage.
Context `{T : Telebot}.
Implicit Types (w : world) (o : operation) (self : loc).

Lemma run_no_context w self o :
  bound o = true →
  contexts w !! self = None →
  run self o w = (Raised (AttributeError "self"), w).
Proof.
  intros Hbd Hc. destruct (run_body self o w Hbd) as [k ->].
  apply bind_raised. unfold resolve. apply bind_raised.
  unfold getattr. by rewrite Hc.
Qed.

Lemma run_no_bot_id w self o c :
  bound o = true →
  contexts w !! self = Some c → bots w !! bot c = None →
  run self o w = (Raised (AttributeError "bot_id"), w).
Proof.
  intros Hbd Hc Hb. destruct (run_body self o w Hbd) as [k ->].
  apply bind_raised. unfold resolve, getattr, getattr_bot_id, mbind, M_bind.
  rewrite Hc. simpl. rewrite Hc. simpl. by rewrite Hb.
Qed.

(** The ways an operation can go, in any world. *)
Lemma run_cases w self o :
  (∃ e, run self o w = (Raised e, w)) ∨
  (∃ c b, live w self c b ∧ plain o = true).
Proof.
  destruct (bound o) eqn:Hbd;
    [|left; destruct (run_unbound o Hbd) as [k Hk]; by eexists].
  destruct (contexts w !! self) as [c|] eqn:Hc;
    [|left; eexists; by apply run_no_context].
  destruct (bots w !! bot c) as [b|] eqn:Hb;
    [|left; eexists; by apply (run_no_bot_id _ _ _ c)].
  destruct (plain o) eqn:Hp; [right; by exists c, b|].
  left. destruct (run_clash w self o c b) as (k & Hk); [done..|]. by exists (TypeError k).
Qed.

Lemma init_some (msg : Message + CallbackQuery) (bt : loc) w b :
  bots w !! bt = Some b →
  __init__ msg bt w =
  (Ok (fresh (dom (contexts w))),
   World (<[fresh (dom (contexts w)) :=
              StateContext.Build msg bt (AsyncTeleBot.bot_id b)]> (contexts w))
         (bots w) (store w) (log w)).
Proof.
  intros Hb. unfold __init__, getattr_bot_id, alloc, mbind, M_bind. by rewrite Hb.
Qed.

Lemma init_none (msg : Message + CallbackQuery) (bt : loc) w :
  bots w !! bt = None →
  __init__ msg bt w = (Raised (AttributeError "bot_id"), w).
Proof.
  intros Hb. unfold __init__, getattr_bot_id, alloc, mbind, M_bind. by rewrite Hb.
Qed.

(** X1. [StateContext(message, bot)] fails with [AttributeError], leaving
    everything as it was, when the bot has no [bot_id].  Otherwise it
    yields an object that was not there before, holding the message, the
    bot and the bot's id of that moment; every context that existed keeps
    its fields, and the bot, the storage and the log of calls are as
    before: construction asks nothing of the bot. *)
Theorem init_is_fresh_and_silent (msg : Message + CallbackQuery) (bt : loc) w :
  match bots w !! bt with
  | None => __init__ msg bt w = (Raised (AttributeError "bot_id"), w)
  | Some b =>
      ∃ self w1,
        __init__ msg bt w = (Ok self, w1) ∧
        contexts w !! self = None ∧
        contexts w1 !! self = Some (StateContext.Build msg bt (AsyncTeleBot.bot_id b)) ∧
        (∀ l c, contexts w !! l = Some c → contexts w1 !! l = Some c) ∧
        size (contexts w1) = S (size (contexts w)) ∧
        bots w1 = bots w ∧ store w1 = store w ∧ log w1 = log w
  end.
Proof.
  unfold __init__, getattr_bot_id, alloc, mbind, M_bind.
  destruct (bots w !! bt) as [b|]; [|done].
  assert (contexts w !! fresh (dom (contexts w)) = None) as Hf.
  { apply not_elem_of_dom, is_fresh. }
  do 2 eexists. split; [reflexivity|]. simpl.
  split; [done|]. split; [apply lookup_insert_eq|].
  split; [|split; [by apply map_size_insert_None|done]].
  intros l c Hl. rewrite lookup_insert_ne; [done|]. intros <-. congruence.
Qed.

(** X2. When the bot of a context has no [bot_id] any more, every
    operation whose arguments can be bound ends in [AttributeError] and
    nothing has been asked of the bot or changed.  For the five coroutine
    operations the call itself still hands out a coroutine and the error
    comes when it is awaited; [data] fails at the call.  [add_data] given
    a keyword [self] fails at the call with [TypeError], as it does with
    any bot. *)
Theorem bot_without_id_fails_before_call w self o c :
  contexts w !! self = Some c → bots w !! bot c = None →
  (bound o = true →
     run self o w = (Raised (AttributeError "bot_id"), w) ∧
     (o ≠ OpData → asynchronous self o w)) ∧
  (o = OpData → perform self o w = (Raised (AttributeError "bot_id"), w)) ∧
  (bound o = false →
     ∃ k, perform self o w = (Raised (TypeError k), w) ∧
          run self o w = (Raised (TypeError k), w)).
Proof.
  intros Hc Hb. split; [|split].
  - intros Hbd. split; [by apply (run_no_bot_id _ _ _ c)|].
    intros Ho. destruct o as [| | | | |kw]; try done; try (eexists; reflexivity).
    unfold asynchronous, perform, StateContext.add_data.
    rewrite (bound_add_data _ Hbd). eexists; reflexivity.
  - intros ->. pose proof (run_no_bot_id w self OpData c eq_refl Hc Hb) as Hr.
    unfold run, perform, StateContext.data in Hr. rewrite run_def in Hr.
    unfold perform, StateContext.data, def. by apply bind_raised.
  - intros Hbd. destruct (perform_unbound o Hbd) as [k Hk].
    exists k. split; [done|]. unfold run. by apply bind_raised.
Qed.

(** X3. A coroutine handed out by [set], [get], [delete], [reset_data] or
    [add_data] (the last with keywords that do not name [self]) is not
    tied to the moment of the call: it is the same coroutine in whatever
    world the method was called, and awaiting it reads the message, the
    bot and the bot's id then.  The key of the call it makes is resolved
    with the id the bot has when the coroutine is awaited. *)
Theorem coroutine_resolves_when_awaited self o :
  o ≠ OpData → bound o = true →
  ∃ body,
    (∀ w, perform self o w = (Ok (Coroutine body), w)) ∧
    (∀ w', body w' = run self o w') ∧
    (∀ w' c b', live w' self c b' →
       Forall (λ '(_, _, kw),
                 addressing kw =
                 Some <$> components
                   (resolve_context (message c) (AsyncTeleBot.bot_id b')))
              (calls (since w' (body w').2))).
Proof.
  intros Ho Hbd.
  assert (∃ body, (∀ w, perform self o w = (Ok (Coroutine body), w)) ∧
                  (∀ w', body w' = run self o w')) as (body & H1 & H2).
  { destruct o as [| | | | |kw]; try done;
      try (eexists; split; intros; reflexivity).
    unfold run, perform, StateContext.add_data.
    rewrite (bound_add_data _ Hbd). eexists; split; intros; reflexivity. }
  exists body. split; [done|]. split; [done|].
  intros w' c b' Hl. rewrite H2, (calls_run _ _ _ _ _ Hl).
  destruct (plain o); repeat constructor. apply addressing_written.
Qed.

Lemma calls_app (l1 l2 : list interaction) : calls (l1 ++ l2) = calls l1 ++ calls l2.
Proof. apply omap_app. Qed.

Lemma awaits_app (l1 l2 : list interaction) : awaits (l1 ++ l2) = awaits l1 ++ awaits l2.
Proof. apply omap_app. Qed.

(** What one operation adds to the log, in any world. *)
Lemma run_log w self o :
  ∃ l, log (run self o w).2 = log w ++ l ∧
       (l = [] ∨ ∃ b m kw, l = exchange b m kw (awaited o) (bots w, store w)).
Proof.
  destruct (run_cases w self o) as [[e He]|(c & b & Hl & Hp)].
  - exists []. rewrite He. simpl. rewrite app_nil_r. by split; [|left].
  - eexists. rewrite (run_plain _ _ _ _ _ Hl Hp). simpl. split; [done|].
    right. by do 3 eexists.
Qed.

Lemma exchange_counts b m kw aw e :
  (length (awaits (exchange b m kw aw e)) ≤ 1)%nat ∧
  length (calls (exchange b m kw aw e)) = 1%nat.
Proof.
  unfold exchange. simpl. destruct (invoke b m kw e).1; [destruct aw|]; simpl; lia.
Qed.

Lemma history_log self os w :
  ∃ l, log (history self os w) = log w ++ l ∧
       (length (calls l) ≤ length os)%nat ∧
       (length (awaits l) ≤ length (calls l))%nat.
Proof.
  revert w. induction os as [|o os IH]; intros w.
  - exists []. simpl. rewrite app_nil_r. split; [done|]. split; lia.
  - simpl. destruct (IH (run self o w).2) as (l2 & Hl2 & Hc2 & Ha2).
    destruct (run_log w self o) as (l1 & Hl1 & Hs).
    exists (l1 ++ l2). rewrite Hl2, Hl1, app_assoc. split; [done|].
    rewrite calls_app, awaits_app, !length_app.
    destruct Hs as [->|(b & m & kw & ->)].
    + simpl. split; lia.
    + destruct (exchange_counts b m kw (awaited o) (bots w, store w)) as [Ha1 Hc1].
      rewrite Hc1. split; lia.
Qed.

(** X4. In any world, whether the context is in use or not, an operation
    asks the bot nothing, or makes one call and, for the coroutine
    operations, awaits once the object that call returned.  The log of
    what was asked only grows, and after any sequence of operations on a
    context there are at most as many calls as operations and never more
    awaits than calls. *)
Theorem at_most_one_call self o os w :
  (since w (run self o w).2 = [] ∨
   ∃ b m kw, since w (run self o w).2
             = exchange b m kw (awaited o) (bots w, store w)) ∧
  log (run self o w).2 = log w ++ since w (run self o w).2 ∧
  log (history self os w) = log w ++ since w (history self os w) ∧
  (length (calls (since w (history self os w))) ≤ length os)%nat ∧
  (length (awaits (since w (history self os w)))
   ≤ length (calls (since w (history self os w))))%nat.
Proof.
  destruct (run_log w self o) as (l1 & Hl1 & Hs).
  destruct (history_log self os w) as (l & Hl & Hc & Ha).
  assert (since w (run self o w).2 = l1) as E1.
  { unfold since. by rewrite Hl1, drop_app_length. }
  assert (since w (history self os w) = l) as E.
  { unfold since. by rewrite Hl, drop_app_length. }
  rewrite E1, E. done.
Qed.

Lemma answer_invariant (P : gmap loc AsyncTeleBot.t * storage → Prop) b m kw aw e :
  (∀ b m kw e, P e → P (invoke b m kw e).2) →
  (∀ c e, P e → P (resume c e).2) →
  P e → P (answer b m kw aw e).2.
Proof.
  intros Hi Hr He. unfold answer.
  pose proof (Hi b m kw e He) as H1.
  destruct (invoke b m kw e) as [[v|x] e1]; simpl in *; [|done].
  destruct aw; [by apply Hr|done].
Qed.

Lemma run_invariant (P : gmap loc AsyncTeleBot.t * storage → Prop) self o w :
  (∀ b m kw e, P e → P (invoke b m kw e).2) →
  (∀ c e, P e → P (resume c e).2) →
  P (bots w, store w) →
  P (bots (run self o w).2, store (run self o w).2).
Proof.
  intros Hi Hr Hw.
  destruct (run_cases w self o) as [[e He]|(c & b & Hl & Hp)].
  - by rewrite He.
  - rewrite (run_plain _ _ _ _ _ Hl Hp). simpl.
    pose proof (answer_invariant P (bot c) (corresponding o)
      (written o (resolve_context (message c) (AsyncTeleBot.bot_id b)) ++ starred o)
      (awaited o) _ Hi Hr Hw) as Ha.
    by destruct (answer _ _ _ _ _).2.
Qed.

(** X5. The class adds no effect of its own on the bots or on the
    storage: whatever property of them every method of the bot and every
    await keeps, each of the six operations keeps, in any world and for
    any arguments, and so does any sequence of operations. *)
Theorem operations_keep_storage_invariants
    (P : gmap loc AsyncTeleBot.t * storage → Prop) self o os w :
  (∀ b m kw e, P e → P (invoke b m kw e).2) →
  (∀ c e, P e → P (resume c e).2) →
  P (bots w, store w) →
  P (bots (run self o w).2, store (run self o w).2) ∧
  P (bots (history self os w), store (history self os w)).
Proof.
  intros Hi Hr Hw. split; [by apply run_invariant|].
  revert w Hw. induction os as [|o' os IH]; intros w Hw; [done|].
  simpl. apply IH. by apply run_invariant.
Qed.

(** X6. A context is its message and its bot and nothing more: two
    contexts that hold the same message and the same bot give, for every
    operation and in every world, the same result or exception and leave
    the same world, whatever id each has cached. *)
Theorem equal_contexts_are_interchangeable w self1 self2 c1 c2 o :
  contexts w !! self1 = Some c1 → contexts w !! self2 = Some c2 →
  message c1 = message c2 → bot c1 = bot c2 →
  run self1 o w = run self2 o w.
Proof.
  intros H1 H2 Hm Hb.
  destruct (bound o) eqn:Hbd;
    [|destruct (run_unbound o Hbd) as [k Hk]; by rewrite !Hk].
  destruct (bots w !! bot c1) as [b|] eqn:Hbot.
  - assert (live w self1 c1 b) as Hl1 by done.
    assert (live w self2 c2 b) as Hl2 by (split; [done|by rewrite <- Hb]).
    by rewrite (run_delegate _ _ _ _ _ Hl1 Hbd), (run_delegate _ _ _ _ _ Hl2 Hbd), Hm, Hb.
  - rewrite (run_no_bot_id _ _ _ c1 Hbd H1 Hbot).
    rewrite (run_no_bot_id _ _ _ c2 Hbd H2); [done|by rewrite <- Hb].
Qed.

(** X7. Building a context for each use is as good as keeping one: an
    operation whose arguments can be bound gives, on a context built on
    the spot from a message and a bot, the result or exception, the calls,
    and the bots and storage afterwards that it gives on a context already
    there with that message and that bot. *)
Theorem fresh_context_is_as_good w self o c :
  contexts w !! self = Some c → bound o = true →
  let r := (__init__ (message c) (bot c) ≫= λ new, run new o) w in
  r.1 = (run self o w).1 ∧
  log r.2 = log (run self o w).2 ∧
  bots r.2 = bots (run self o w).2 ∧
  store r.2 = store (run self o w).2.
Proof.
  intros Hc Hbd r. subst r. unfold mbind, M_bind.
  destruct (bots w !! bot c) as [b|] eqn:Hb.
  - rewrite (init_some _ _ _ _ Hb).
    set (new := fresh (dom (contexts w))).
    set (c' := StateContext.Build (message c) (bot c) (AsyncTeleBot.bot_id b)).
    set (w1 := World (<[new := c']> (contexts w)) (bots w) (store w) (log w)).
    assert (live w1 new c' b) as Hl'.
    { split; [apply lookup_insert_eq | done]. }
    assert (live w self c b) as Hl by done.
    rewrite (run_delegate _ _ _ _ _ Hl Hbd), (run_delegate _ _ _ _ _ Hl' Hbd),
      !delegate_unfold.
    simpl. by destruct (merge_keywords _ _).
  - rewrite (init_none _ _ _ Hb). by rewrite (run_no_bot_id _ _ _ c Hbd Hc Hb).
Qed.

End Coverage.

(** * The statements on the test double *)



Lemma storage_outcome_propagates_witness :
  (run (T := Demo.telebot) 1%positive OpResetData Demo.w0).1
    = Raised (Exception (PStr "storage offline")) ∧
  since Demo.w0 (run (T := Demo.telebot) 1%positive OpResetData Demo.w0).2
    = [Called 7%positive "reset_data"
         [("chat_id", PInt 11); ("user_id", PInt 5);
          ("business_connection_id", PNone); ("bot_id", PInt 42);
          ("message_thread_id", PNone)];
       Awaited (PObj 1%positive)].
Proof.
  destruct (storage_outcome_propagates (T := Demo.telebot)
              Demo.w0 1%positive OpResetData Demo.ctx Demo.the_bot) as [H _];
    [split; reflexivity|].
  apply (H 7%positive "reset_data"
           [("chat_id", PInt 11); ("user_id", PInt 5);
            ("business_connection_id", PNone); ("bot_id", PInt 42);
            ("message_thread_id", PNone)]).
  apply list_elem_of_singleton. reflexivity.
Defined.

Lemma set_normalises_state_witness :
  ∃ kw, Demo.asked 1%positive (OpSet Demo.registration) = [(7%positive, "set_state", kw)] ∧
        kwlookup "state" kw = Some (PStr "Registration:name") ∧
        (run (T := Demo.telebot) 1%positive (OpSet Demo.registration) Demo.w0).1 = Ok (PBool true).
Proof.
  destruct (set_normalises_state (T := Demo.telebot)
              Demo.w0 1%positive Demo.ctx Demo.the_bot) as [H _].
  - split; reflexivity.
  - exact (H (PStr "Registration:name")).
Defined.

Lemma asynchronous_except_data_witness :
  (asynchronous (T := Demo.telebot) 1%positive OpGet Demo.w0 ∧
   awaits_its_call (T := Demo.telebot) 1%positive OpGet Demo.w0) ∧
  (¬ asynchronous (T := Demo.telebot) 1%positive OpData Demo.w0 ∧
   awaits (since Demo.w0 (run (T := Demo.telebot) 1%positive OpData Demo.w0).2) = [] ∧
   perform (T := Demo.telebot) 1%positive OpData Demo.w0 =
   (Ok (Value (PObj 1000%positive)),
    World (contexts Demo.w0) (bots Demo.w0) (store Demo.w0)
      [Called 7%positive "retrieve_data"
         [("chat_id", PInt 11); ("user_id", PInt 5);
          ("business_connection_id", PNone); ("bot_id", PInt 42);
          ("message_thread_id", PNone)]])) ∧
  since Demo.w0 (run (T := Demo.telebot) 1%positive OpGet Demo.w0).2 =
  [Called 7%positive "get_state"
     [("chat_id", PInt 11); ("user_id", PInt 5);
      ("business_connection_id", PNone); ("bot_id", PInt 42);
      ("message_thread_id", PNone)];
   Awaited (PObj 1%positive)] ∧
  ¬ asynchronous (T := Demo.telebot) 1%positive Demo.myself Demo.w0.
Proof.
  destruct (asynchronous_except_data (T := Demo.telebot)
              Demo.w0 1%positive OpGet Demo.ctx Demo.the_bot) as (H1 & _ & _ & H3 & _).
  { split; reflexivity. }
  destruct (asynchronous_except_data (T := Demo.telebot)
              Demo.w0 1%positive OpData Demo.ctx Demo.the_bot) as (_ & _ & H2 & _).
  { split; reflexivity. }
  destruct (asynchronous_except_data (T := Demo.telebot)
              Demo.w0 1%positive Demo.myself Demo.ctx Demo.the_bot) as (_ & H4 & _).
  { split; reflexivity. }
  split; [apply H1; [discriminate|reflexivity]|]. split; [exact (H2 eq_refl)|].
  split; [exact (H3 eq_refl)|]. exact (proj2 (H4 eq_refl)).
Defined.

(** [data] is a plain function: its call makes the call of
    [retrieve_data] and returns the object, and nothing awaits it.  And
    [add_data] given a keyword [self] hands out no coroutine. *)
Lemma data_is_not_asynchronous :
  ¬ asynchronous (T := Demo.telebot) 1%positive OpData Demo.w0 ∧
  ¬ awaits_its_call (T := Demo.telebot) 1%positive OpData Demo.w0 ∧
  ¬ asynchronous (T := Demo.telebot) 1%positive Demo.myself Demo.w0.
Proof.
  split; [|split].
  - intros [body H]. vm_compute in H. discriminate H.
  - intros H.
    specialize (H 7%positive "retrieve_data"
                  [("chat_id", PInt 11); ("user_id", PInt 5);
                   ("business_connection_id", PNone); ("bot_id", PInt 42);
                   ("message_thread_id", PNone)]
                  (PObj 1000%positive)).
    assert (awaits (since Demo.w0 (run (T := Demo.telebot) 1%positive OpData Demo.w0).2)
            = []) as E by reflexivity.
    rewrite E in H. eapply elem_of_nil, H; [|reflexivity].
    apply list_elem_of_singleton. reflexivity.
  - intros [body H]. vm_compute in H. discriminate H.
Qed.





Lemma addressing_tuple_shape_witness :
  Forall (λ '(_, _, kw),
    ∃ chat_id user_id business bot_id thread : pyval,
      Demo.resolve (inr (11, 5, "biz", 3)) PNone
        = (chat_id, user_id, business, bot_id, thread) ∧
      List.filter (λ k, bool_decide (k ∈ addressing_names)) (kwnames kw)
        = addressing_names ∧
      addressing kw =
        [Some chat_id; Some user_id; Some business; Some bot_id; Some thread])
    (calls (since Demo.w_anon
              (run (T := Demo.telebot) 2%positive Demo.john Demo.w_anon).2))
  ∧ length (calls (since Demo.w_anon
                     (run (T := Demo.telebot) 2%positive Demo.john Demo.w_anon).2))
    = 1%nat
  ∧ Forall (λ '(_, _, kw), kwlookup "bot_id" kw = Some PNone)
      (calls (since Demo.w_anon
                (run (T := Demo.telebot) 2%positive Demo.john Demo.w_anon).2)).
Proof.
  destruct (addressing_tuple_shape (T := Demo.telebot)
              Demo.w_anon 2%positive Demo.john Demo.ctx_cb (AsyncTeleBot.Build PNone))
    as (H1 & _ & H2 & H3); [split; reflexivity|].
  split; [exact H1|]. split; [exact (H2 eq_refl)|].
  exact (H3 (PInt 11) (PInt 5) (PStr "biz") (PInt 3) eq_refl).
Defined.

(** With a bot whose [bot_id] is [None], the call carries [bot_id=None]. *)
Lemma bot_id_may_be_none :
  ¬ supplies_ids (T := Demo.telebot) 1%positive OpGet Demo.w_anon.
Proof.
  intros H.
  destruct (H 7%positive "get_state"
              [("chat_id", PInt 11); ("user_id", PInt 5);
               ("business_connection_id", PNone); ("bot_id", PNone);
               ("message_thread_id", PNone)]) with (k := "bot_id")
    as (v & Hv & Hn).
  - apply list_elem_of_singleton. reflexivity.
  - apply elem_of_cons; right. apply elem_of_cons; right.
    apply list_elem_of_singleton. reflexivity.
  - vm_compute in Hv. injection Hv as <-. by apply Hn.
Qed.

Lemma addressing_deterministic_witness :
  addressing
    [("chat_id", PInt 11); ("user_id", PInt 5); ("business_connection_id", PNone);
     ("bot_id", PInt 42); ("message_thread_id", PNone)]
  = addressing
    [("chat_id", PInt 11); ("user_id", PInt 5); ("business_connection_id", PNone);
     ("bot_id", PInt 42); ("message_thread_id", PNone); ("name", PStr "John")]
  ∧ contexts (history (T := Demo.telebot) 1%positive
                [OpSet Demo.registration; OpData; OpResetData] Demo.w0) !! 1%positive
    = Some Demo.ctx.
Proof.
  destruct (addressing_deterministic (T := Demo.telebot)
              Demo.w0 Demo.w0 1%positive 1%positive Demo.ctx Demo.ctx
              Demo.the_bot Demo.the_bot OpGet Demo.john) as [H1 H2];
    [split; reflexivity | split; reflexivity | reflexivity | reflexivity |].
  destruct (H2 [OpSet Demo.registration; OpData; OpResetData] Demo.the_bot
               (7%positive, "get_state",
                [("chat_id", PInt 11); ("user_id", PInt 5);
                 ("business_connection_id", PNone); ("bot_id", PInt 42);
                 ("message_thread_id", PNone)])
               (7%positive, "add_data",
                [("chat_id", PInt 11); ("user_id", PInt 5);
                 ("business_connection_id", PNone); ("bot_id", PInt 42);
                 ("message_thread_id", PNone); ("name", PStr "John")]))
    as [H3 H4].
  - reflexivity.
  - reflexivity.
  - apply list_elem_of_singleton. reflexivity.
  - apply list_elem_of_singleton. reflexivity.
  - split; [exact H4 | exact H3].
Defined.

Lemma cached_bot_id_is_not_read_witness :
  contexts Demo.w0 !! 1%positive = Some Demo.ctx ∧
  StateContext.bot_id Demo.ctx = PInt 41 ∧
  Forall (λ '(b', _, kw),
            b' = 7%positive ∧
            addressing kw
              = Some <$> components (PInt 11, PInt 5, PNone, PInt 42, PNone))
         (Demo.asked 1%positive OpDelete) ∧
  length (Demo.asked 1%positive OpDelete) = 1%nat ∧
  Forall (λ '(_, _, kw), kwlookup "bot_id" kw = Some (PInt 42))
         (Demo.asked 1%positive OpDelete).
Proof.
  destruct (cached_bot_id_is_not_read (T := Demo.telebot)
              Demo.w_init (inl (11, 5)) 7%positive 1%positive
              (World (T := Demo.telebot) {[ 1%positive := Demo.ctx ]}
                     {[ 7%positive := AsyncTeleBot.Build (PInt 41) ]} [] []))
    as [_ H]; [reflexivity|].
  destruct (H Demo.w0 Demo.the_bot OpDelete) as (H1 & H2 & H3 & _);
    [reflexivity | reflexivity |].
  split; [reflexivity|]. split; [reflexivity|].
  split; [exact H1|]. split; [exact (H2 eq_refl)|].
  exact (H3 (PInt 11) (PInt 5) PNone PNone eq_refl).
Defined.

Lemma bot_without_id_fails_before_call_witness :
  run (T := Demo.telebot) 1%positive Demo.john Demo.w_gone
    = (Raised (AttributeError "bot_id"), Demo.w_gone) ∧
  asynchronous (T := Demo.telebot) 1%positive Demo.john Demo.w_gone ∧
  perform (T := Demo.telebot) 1%positive OpData Demo.w_gone
    = (Raised (AttributeError "bot_id"), Demo.w_gone) ∧
  (∃ k, perform (T := Demo.telebot) 1%positive Demo.myself Demo.w_gone
          = (Raised (TypeError k), Demo.w_gone) ∧
        run (T := Demo.telebot) 1%positive Demo.myself Demo.w_gone
          = (Raised (TypeError k), Demo.w_gone)).
Proof.
  destruct (bot_without_id_fails_before_call (T := Demo.telebot)
              Demo.w_gone 1%positive Demo.john Demo.ctx) as (H1 & _ & _);
    [reflexivity | reflexivity |].
  destruct (bot_without_id_fails_before_call (T := Demo.telebot)
              Demo.w_gone 1%positive OpData Demo.ctx) as (_ & H3 & _);
    [reflexivity | reflexivity |].
  destruct (bot_without_id_fails_before_call (T := Demo.telebot)
              Demo.w_gone 1%positive Demo.myself Demo.ctx) as (_ & _ & H4);
    [reflexivity | reflexivity |].
  split; [exact (proj1 (H1 eq_refl))|].
  split; [apply (proj2 (H1 eq_refl)); discriminate|].
  split; [exact (H3 eq_refl) | exact (H4 eq_refl)].
Defined.

Lemma coroutine_resolves_when_awaited_witness :
  ∃ body,
    perform (T := Demo.telebot) 1%positive OpGet Demo.w_gone
      = (Ok (Coroutine body), Demo.w_gone) ∧
    body Demo.w0 = run (T := Demo.telebot) 1%positive OpGet Demo.w0 ∧
    Forall (λ '(_, _, kw),
              addressing kw
                = Some <$> components (PInt 11, PInt 5, PNone, PInt 42, PNone))
           (calls (since Demo.w0 (body Demo.w0).2)).
Proof.
  destruct (coroutine_resolves_when_awaited (T := Demo.telebot) 1%positive OpGet)
    as (body & H1 & H2 & H3); [discriminate | reflexivity |].
  exists body. split; [apply H1|]. split; [apply H2|].
  apply (H3 Demo.w0 Demo.ctx Demo.the_bot). split; reflexivity.
Defined.

Lemma operations_keep_storage_invariants_witness :
  bots (run (T := Demo.telebot) 2%positive Demo.john Demo.w0).2 !! 7%positive
    = Some Demo.the_bot ∧
  bots (history (T := Demo.telebot) 2%positive
          [OpSet Demo.registration; OpResetData; OpData] Demo.w0) !! 7%positive
    = Some Demo.the_bot.
Proof.
  apply (operations_keep_storage_invariants (T := Demo.telebot)
           (λ e, e.1 !! 7%positive = Some Demo.the_bot)).
  - intros b m kw e He. simpl. unfold Demo.invoke.
    destruct (bool_decide (m ∈ storage_methods)); [|exact He].
    destruct (String.eqb m "retrieve_data"); exact He.
  - intros c e He. simpl. unfold Demo.resume.
    destruct c; try exact He.
    repeat match goal with
           | |- context [match ?x with _ => _ end] => destruct x
           end; exact He.
  - reflexivity.
Defined.

Lemma equal_contexts_are_interchangeable_witness :
  run (T := Demo.telebot) 1%positive Demo.john Demo.w_two
  = run (T := Demo.telebot) 3%positive Demo.john Demo.w_two.
Proof.
  apply (equal_contexts_are_interchangeable (T := Demo.telebot)
           Demo.w_two 1%positive 3%positive Demo.ctx Demo.ctx_stale);
    reflexivity.
Defined.

Lemma fresh_context_is_as_good_witness :
  ((__init__ (T := Demo.telebot) (inr (11, 5, "biz", 3)) 7%positive
      ≫= λ new, run new OpDelete) Demo.w_two).1
    = (run (T := Demo.telebot) 2%positive OpDelete Demo.w_two).1 ∧
  log ((__init__ (T := Demo.telebot) (inr (11, 5, "biz", 3)) 7%positive
          ≫= λ new, run new OpDelete) Demo.w_two).2
    = log (run (T := Demo.telebot) 2%positive OpDelete Demo.w_two).2.
Proof.
  destruct (fresh_context_is_as_good (T := Demo.telebot)
              Demo.w_two 2%positive OpDelete Demo.ctx_cb) as (H1 & H2 & _);
    [reflexivity | reflexivity |].
  split; [exact H1 | exact H2].
Defined.
